(** * ArduinoModbusSlave: the [examples/full/full.ino] sketch

    The sketch binds the Modbus slave engine to the board: digital pins
    are served as coils and discrete inputs, analog pins as input
    registers, the EEPROM as holding registers, and holding registers
    3 .. 13 double as the pin-mode table.

    The embedding is shallow.  The board (EEPROM cells, pin direction
    registers, output latches, the outside world seen by the pins, the
    request and response buffers of the engine) is an explicit state, the
    handlers are functions in a state monad over it, and every call of a
    primitive of the Arduino core, of [EEPROM.h] or of the engine is
    appended to a trace.

    Arithmetic is that of avr-gcc, the target of [EEPROM.h]: [int] and
    [unsigned int] are 16 bits wide, [uint16_t + int] is computed modulo
    2^16, and a [uint8_t] parameter keeps the low 8 bits of its
    argument.  The pins follow the AVR core: a direction register and an
    output latch per pin, the latch doubling as the pull-up switch of an
    input. *)

From Stdlib Require Import ZArith Lia.
From stdpp Require Import base numbers functions list list_numbers gmap.

Local Open Scope Z_scope.

(** ** Machine integers *)

Definition to_u16 (z : Z) : Z := z mod 65536.
Definition to_u8 (z : Z) : Z := z mod 256.

(** ** Constants of the sketch *)

Definition SLAVE_ID : Z := 1.
Definition CTRL_PIN : Z := 8.
Definition BAUDRATE : Z := 9600.

Definition PIN_MODE_INPUT : Z := 0.
Definition PIN_MODE_OUTPUT : Z := 1.

(** Function codes of [ModbusSlave.h], with the values the comments of
    the sketch give them (FC=01 .. FC=05, FC=16). *)
Definition FC_READ_COILS : Z := 1.
Definition FC_READ_DISCRETE_INPUT : Z := 2.
Definition FC_READ_HOLDING_REGISTERS : Z := 3.
Definition FC_READ_INPUT_REGISTERS : Z := 4.
Definition FC_WRITE_COIL : Z := 5.
Definition FC_WRITE_MULTIPLE_REGISTERS : Z := 16.

(** ** The board *)

(** Direction of a digital pin, as [pinMode] sets it. *)
Inductive pin_mode : Type := INPUT | OUTPUT.

(** Slots of the callback vector of the engine, and the handlers of
    the sketch that [setup] stores in them. *)
Inductive callback : Type :=
  | CB_READ_COILS
  | CB_WRITE_COIL
  | CB_READ_REGISTERS
  | CB_WRITE_MULTIPLE_REGISTERS.

Inductive handler : Type :=
  | h_readDigitalIn
  | h_writeDigitlOut
  | h_readMemory
  | h_writeMemory.

(** One entry of the trace per call of a primitive. *)
Inductive event : Type :=
  | EvPinMode (pin : Z) (m : pin_mode)
  | EvDigitalRead (pin : Z)
  | EvDigitalWrite (pin : Z) (high : bool)
  | EvAnalogRead (pin : Z)
  | EvEepromGet (idx : Z)
  | EvEepromPut (idx : Z) (value : Z)
  | EvReadRegisterFromBuffer (offset : Z)
  | EvWriteCoilToBuffer (offset : Z) (bit : bool)
  | EvWriteRegisterToBuffer (offset : Z) (value : Z)
  | EvSerialBegin (baud : Z)
  | EvSlaveBegin (baud : Z).

Record board : Type := mkBoard {
  eeprom : list Z;                      (* EEPROM cells, one byte each *)
  modes : Z -> pin_mode;                (* direction register of each pin *)
  latches : Z -> bool;                  (* output latch of each pin *)
  signals : Z -> option bool;           (* level driven from outside, if any *)
  adc : Z -> Z;                         (* conversion result of each analog pin *)
  request : list Z;                     (* words of the request buffer *)
  coils : gmap Z bool;                  (* bits of the response buffer *)
  registers : gmap Z Z;                 (* words of the response buffer *)
  cbVector : callback -> option handler;
  trace : list event
}.

Definition set_eeprom (e : list Z) (st : board) : board :=
  mkBoard e (modes st) (latches st) (signals st) (adc st) (request st)
          (coils st) (registers st) (cbVector st) (trace st).
Definition set_modes (m : Z -> pin_mode) (st : board) : board :=
  mkBoard (eeprom st) m (latches st) (signals st) (adc st) (request st)
          (coils st) (registers st) (cbVector st) (trace st).
Definition set_latches (l : Z -> bool) (st : board) : board :=
  mkBoard (eeprom st) (modes st) l (signals st) (adc st) (request st)
          (coils st) (registers st) (cbVector st) (trace st).
Definition set_coils (c : gmap Z bool) (st : board) : board :=
  mkBoard (eeprom st) (modes st) (latches st) (signals st) (adc st) (request st)
          c (registers st) (cbVector st) (trace st).
Definition set_registers (r : gmap Z Z) (st : board) : board :=
  mkBoard (eeprom st) (modes st) (latches st) (signals st) (adc st) (request st)
          (coils st) r (cbVector st) (trace st).
Definition set_cbVector (v : callback -> option handler) (st : board) : board :=
  mkBoard (eeprom st) (modes st) (latches st) (signals st) (adc st) (request st)
          (coils st) (registers st) v (trace st).
Definition emit (e : event) (st : board) : board :=
  mkBoard (eeprom st) (modes st) (latches st) (signals st) (adc st) (request st)
          (coils st) (registers st) (cbVector st) (trace st ++ [e]).

(** ** The state monad of the sketch *)

Definition M (A : Type) : Type := board -> A * board.

Definition ret {A : Type} (a : A) : M A := fun st => (a, st).
Definition bind {A B : Type} (c : M A) (k : A -> M B) : M B :=
  fun st => let (a, st') := c st in k a st'.

Declare Scope sketch_scope.
Delimit Scope sketch_scope with sketch.
Notation "x <- c ;; k" := (bind c (fun x => k))
  (at level 100, c at next level, right associativity) : sketch_scope.
Notation "c ;; k" := (bind c (fun _ => k))
  (at level 100, right associativity) : sketch_scope.
Local Open Scope sketch_scope.

(** Final board and returned value of a computation. *)
Definition exec {A : Type} (c : M A) (st : board) : board := snd (c st).
Definition eval {A : Type} (c : M A) (st : board) : A := fst (c st).

(** [for (i = lo; i < hi; i++) body(i)]: the body runs [hi - lo] times
    (the test of [int i] against a [uint16_t] bound is unsigned).  The
    counter is followed as an integer; the expressions of the body that
    mention it are reduced to 16 bits where C computes them so. *)
Fixpoint for_count (n : nat) (i : Z) (body : Z -> M unit) : M unit :=
  match n with
  | O => ret tt
  | S n' => body i ;; for_count n' (i + 1) body
  end.

Definition for_range (lo hi : Z) (body : Z -> M unit) : M unit :=
  for_count (Z.to_nat (hi - lo)) lo body.

(** ** Primitives of the Arduino core: [pinMode], [digitalRead],
    [digitalWrite], [analogRead].  Their pin parameter is a [uint8_t]. *)

(** [pinMode(pin, INPUT)] clears the direction bit and the latch (the
    pull-up is switched off); [pinMode(pin, OUTPUT)] sets the direction
    bit. *)
Definition pinMode (pin : Z) (m : pin_mode) : M unit := fun st =>
  let p := to_u8 pin in
  let st1 := match m with
             | INPUT => set_latches (<[p := false]> (latches st)) st
             | OUTPUT => st
             end in
  (tt, emit (EvPinMode p m) (set_modes (<[p := m]> (modes st1)) st1)).

(** An output pin reads back its latch; an input pin reads the level
    driven from outside, and its pull-up when nothing drives it. *)
Definition pin_level (st : board) (p : Z) : bool :=
  match modes st p with
  | OUTPUT => latches st p
  | INPUT => default (latches st p) (signals st p)
  end.

Definition digitalRead (pin : Z) : M Z := fun st =>
  let p := to_u8 pin in
  (Z.b2z (pin_level st p), emit (EvDigitalRead p) st).

(** [digitalWrite(uint8_t pin, uint8_t val)]: LOW is 0, anything else
    drives the latch high. *)
Definition digitalWrite (pin val : Z) : M unit := fun st =>
  let p := to_u8 pin in
  let high := negb (to_u8 val =? 0) in
  (tt, emit (EvDigitalWrite p high) (set_latches (<[p := high]> (latches st)) st)).

(** [adc st p] is what the converter returns for pin argument [p]; it
    has 10 bits. *)
Definition analogRead (pin : Z) : M Z := fun st =>
  let p := to_u8 pin in
  (adc st p mod 1024, emit (EvAnalogRead p) st).

(** ** [EEPROM.h]: [EEPROM.get] and [EEPROM.put] at type [uint16_t]

    A word occupies two consecutive cells, low byte first.  The sketch
    does no bounds check: outside the device a cell reads as erased
    (0xFF) and a write is dropped. *)

Definition eeprom_byte (mem : list Z) (a : Z) : Z :=
  to_u8 (default 255 (mem !! Z.to_nat a)).

Definition eeprom_word (mem : list Z) (idx : Z) : Z :=
  eeprom_byte mem idx + 256 * eeprom_byte mem (to_u16 (idx + 1)).

Definition eeprom_store (mem : list Z) (idx value : Z) : list Z :=
  <[Z.to_nat (to_u16 (idx + 1)) := to_u8 (value / 256)]>
    (<[Z.to_nat idx := to_u8 value]> mem).

Definition EEPROM_get (idx : Z) : M Z := fun st =>
  (eeprom_word (eeprom st) idx, emit (EvEepromGet idx) st).

Definition EEPROM_put (idx value : Z) : M unit := fun st =>
  (tt, emit (EvEepromPut idx value)
            (set_eeprom (eeprom_store (eeprom st) idx value) st)).

(** ** The buffers of the engine *)

(** Modelled from the spec: [slave.readRegisterFromBuffer], the
    "read word i of request" primitive of the engine (its code is in the
    library, not in the sketch); it returns a [uint16_t], slots are
    numbered from 0. *)
Definition readRegisterFromBuffer (offset : Z) : M Z := fun st =>
  (to_u16 (default 0 (request st !! Z.to_nat offset)),
   emit (EvReadRegisterFromBuffer offset) st).

(** Modelled from the spec: [slave.writeCoilToBuffer], the "write bit i
    of response" primitive of the engine; a non-zero state sets the
    bit. *)
Definition writeCoilToBuffer (offset state : Z) : M unit := fun st =>
  let bit := negb (state =? 0) in
  (tt, emit (EvWriteCoilToBuffer offset bit)
            (set_coils (<[offset := bit]> (coils st)) st)).

(** Modelled from the spec: [slave.writeRegisterToBuffer], the "write
    word i of response" primitive of the engine; the value is a
    [uint16_t]. *)
Definition writeRegisterToBuffer (offset value : Z) : M unit := fun st =>
  let w := to_u16 value in
  (tt, emit (EvWriteRegisterToBuffer offset w)
            (set_registers (<[offset := w]> (registers st)) st)).

(** Modelled from the spec: [Serial.begin] and [slave.begin], the
    "serial line initialization at a fixed baud rate" owned by the
    engine; on the board of this model they leave a trace entry only. *)
Definition Serial_begin (baud : Z) : M unit := fun st =>
  (tt, emit (EvSerialBegin baud) st).
Definition slave_begin (baud : Z) : M unit := fun st =>
  (tt, emit (EvSlaveBegin baud) st).

(** [slave.cbVector[cb] = h]. *)
Definition callback_eqb (a b : callback) : bool :=
  match a, b with
  | CB_READ_COILS, CB_READ_COILS
  | CB_WRITE_COIL, CB_WRITE_COIL
  | CB_READ_REGISTERS, CB_READ_REGISTERS
  | CB_WRITE_MULTIPLE_REGISTERS, CB_WRITE_MULTIPLE_REGISTERS => true
  | _, _ => false
  end.

Definition register_handler (cb : callback) (h : handler) : M unit := fun st =>
  (tt, set_cbVector
         (fun c => if callback_eqb c cb then Some h else cbVector st c) st).

(** ** The sketch *)

(** [setup], lines 52-65: the scan of the pin-mode table. *)
Definition setup_scan : M unit :=
  for_range 3 14 (fun pinIndex =>
    (* get one 16bit register from eeprom *)
    eepromValue <- EEPROM_get (to_u16 (pinIndex * 2)) ;;
    (* use the register value to set pin mode. *)
    if eepromValue =? PIN_MODE_INPUT then pinMode pinIndex INPUT
    else if eepromValue =? PIN_MODE_OUTPUT then pinMode pinIndex OUTPUT
    else ret tt).

(** [setup], lines 52-68: the scan, then the RS485 control pin. *)
Definition setup_pins : M unit :=
  setup_scan ;;
  (* RS485 control pin must be output *)
  pinMode CTRL_PIN OUTPUT.

Definition setup : M unit :=
  setup_pins ;;
  register_handler CB_READ_COILS h_readDigitalIn ;;
  register_handler CB_WRITE_COIL h_writeDigitlOut ;;
  register_handler CB_READ_REGISTERS h_readMemory ;;
  register_handler CB_WRITE_MULTIPLE_REGISTERS h_writeMemory ;;
  Serial_begin BAUDRATE ;;
  slave_begin BAUDRATE.

(** Handle Read Coils (FC=01). *)
Definition readCoils (address length : Z) : M unit :=
  for_range 0 length (fun i =>
    v <- digitalRead (to_u16 (address + i)) ;;
    writeCoilToBuffer i v).

(** Handle Read Input Status (FC=02). *)
Definition readDigitalIn (fc address length : Z) : M unit :=
  if fc =? FC_READ_COILS then
    readCoils address length
  else
    for_range 0 length (fun i =>
      v <- digitalRead (to_u16 (address + i)) ;;
      writeCoilToBuffer i v).

(** Handle Read Input Registers (FC=04). *)
Definition readAnalogIn (address length : Z) : M unit :=
  for_range 0 length (fun i =>
    v <- analogRead (to_u16 (address + i)) ;;
    writeRegisterToBuffer i v).

(** Handle Read Holding Registers (FC=03). *)
Definition readMemory (fc address length : Z) : M unit :=
  if fc =? FC_READ_INPUT_REGISTERS then
    readAnalogIn address length
  else
    for_range 0 length (fun i =>
      value <- EEPROM_get (to_u16 (to_u16 (address + i) * 2)) ;;
      writeRegisterToBuffer i value).

(** Handle Force Single Coil (FC=05). *)
Definition writeDigitlOut (fc address status : Z) : M unit :=
  digitalWrite address status.

(** Handle Write Holding Registers (FC=16). *)
Definition writeMemory (fc address length : Z) : M unit :=
  for_range 0 length (fun i =>
    let registerIndex := to_u16 (address + i) in
    (* get uint16_t value from the request buffer. *)
    value <- readRegisterFromBuffer i ;;
    EEPROM_put (to_u16 (registerIndex * 2)) value ;;
    (* if this register sets digital pins mode, set the digital pins mode. *)
    if (2 <? registerIndex) && (registerIndex <? 14)
       && negb (registerIndex =? CTRL_PIN) then
      if value =? PIN_MODE_INPUT then pinMode registerIndex INPUT
      else if value =? PIN_MODE_OUTPUT then pinMode registerIndex OUTPUT
      else ret tt
    else ret tt).

(** ** The engine seen from the sketch *)

Definition call (h : handler) : Z -> Z -> Z -> M unit :=
  match h with
  | h_readDigitalIn => readDigitalIn
  | h_writeDigitlOut => writeDigitlOut
  | h_readMemory => readMemory
  | h_writeMemory => writeMemory
  end.

(** Modelled from the spec: the slot of the callback vector that serves
    a function code.  The engine "invokes one of four registered
    handlers with (function_code, starting_address, count_or_status)";
    Read Coils and Read Discrete Inputs share a slot, and so do Read
    Holding Registers and Read Input Registers, which is why the two
    read handlers of the sketch test the function code. *)
Definition callback_of (fc : Z) : option callback :=
  match fc with
  | 1 | 2 => Some CB_READ_COILS
  | 3 | 4 => Some CB_READ_REGISTERS
  | 5 => Some CB_WRITE_COIL
  | 16 => Some CB_WRITE_MULTIPLE_REGISTERS
  | _ => None
  end.

(** Modelled from the spec: the dispatch of one validated request by
    the poll of the engine, to the handler registered for its
    function code, if any. *)
Definition dispatch (fc address length : Z) : M unit := fun st =>
  match callback_of fc with
  | Some cb =>
      match cbVector st cb with
      | Some h => call h fc address length st
      | None => (tt, st)
      end
  | None => (tt, st)
  end.

(** A board out of reset, for the examples: a 1 KiB erased EEPROM, all
    pins inputs, latches low, nothing connected, empty buffers. *)
Definition reset_board : board :=
  mkBoard (replicate 1024 255) (fun _ => INPUT) (fun _ => false)
          (fun _ => None) (fun _ => 0) [] ∅ ∅ (fun _ => None) [].

(** * Vocabulary of the statements *)

(** The mode a pin has after the value [value] is applied to it: 0
    stands for INPUT, 1 for OUTPUT, anything else keeps the mode. *)
Definition written_mode (value : Z) (old : pin_mode) : pin_mode :=
  if value =? PIN_MODE_INPUT then INPUT
  else if value =? PIN_MODE_OUTPUT then OUTPUT
  else old.

(** The body of the loop of [writeMemory], by name. *)
Definition writeMemory_iteration (address i : Z) : M unit :=
  let registerIndex := to_u16 (address + i) in
  value <- readRegisterFromBuffer i ;;
  EEPROM_put (to_u16 (registerIndex * 2)) value ;;
  if (2 <? registerIndex) && (registerIndex <? 14)
     && negb (registerIndex =? CTRL_PIN) then
    if value =? PIN_MODE_INPUT then pinMode registerIndex INPUT
    else if value =? PIN_MODE_OUTPUT then pinMode registerIndex OUTPUT
    else ret tt
  else ret tt.

(** The body of the scan of [setup], by name. *)
Definition setup_scan_iteration (pinIndex : Z) : M unit :=
  eepromValue <- EEPROM_get (to_u16 (pinIndex * 2)) ;;
  if eepromValue =? PIN_MODE_INPUT then pinMode pinIndex INPUT
  else if eepromValue =? PIN_MODE_OUTPUT then pinMode pinIndex OUTPUT
  else ret tt.

(** Both register read loops of the sketch have this shape: fetch a
    word for counter [i], write it to response slot [i]. *)
Definition respond_words (src : Z -> M Z) (len : Z) : M unit :=
  for_range 0 len (fun i => v <- src i ;; writeRegisterToBuffer i v).

(** The events of one iteration of a register read loop that logs
    [e i] and fetches [f i]. *)
Definition respond_events (e : Z -> event) (f : Z -> Z) (i : Z) : list event :=
  [e i; EvWriteRegisterToBuffer i (to_u16 (f i))].

(** The byte offset [readMemory] reads at counter [i], and the word
    the EEPROM holds there. *)
Definition holding_offset (address i : Z) : Z :=
  to_u16 (to_u16 (address + i) * 2).

Definition holding_word (st : board) (address i : Z) : Z :=
  eeprom_word (eeprom st) (holding_offset address i).

(** The mode word of pin [p] in the EEPROM, and the calls the scan of
    [setup] makes for that pin. *)
Definition mode_word (st : board) (p : Z) : Z :=
  eeprom_word (eeprom st) (p * 2).

Definition scan_events (st : board) (p : Z) : list event :=
  EvEepromGet (p * 2) ::
  if mode_word st p =? PIN_MODE_INPUT then [EvPinMode p INPUT]
  else if mode_word st p =? PIN_MODE_OUTPUT then [EvPinMode p OUTPUT]
  else [].

(** A trace in which [pinMode] is never called on the control pin. *)
Definition spares_ctrl_pin (t : list event) : Prop :=
  forall m, EvPinMode CTRL_PIN m ∉ t.

(** The callback vector [setup] leaves behind. *)
Definition registered (cb : callback) : option handler :=
  match cb with
  | CB_READ_COILS => Some h_readDigitalIn
  | CB_WRITE_COIL => Some h_writeDigitlOut
  | CB_READ_REGISTERS => Some h_readMemory
  | CB_WRITE_MULTIPLE_REGISTERS => Some h_writeMemory
  end.

(** ** Boards for the examples *)

(** The request buffer holds the words 0, 1 and 7; all pins are
    outputs. *)
Definition request_017 : board :=
  mkBoard (replicate 1024 255) (fun _ => OUTPUT) (fun _ => false)
          (fun _ => None) (fun _ => 0) [0; 1; 7] ∅ ∅ (fun _ => None) [].

(** The request buffer holds the words 0 and 1; all pins are outputs. *)
Definition request_01 : board :=
  mkBoard (replicate 1024 255) (fun _ => OUTPUT) (fun _ => false)
          (fun _ => None) (fun _ => 0) [0; 1] ∅ ∅ (fun _ => None) [].

(** The EEPROM holds the words 0x0102 and 0x0304 at indices 5 and 6. *)
Definition eeprom_5_6 : board :=
  set_eeprom (<[10%nat := 2]> (<[11%nat := 1]> (<[12%nat := 4]>
             (<[13%nat := 3]> (replicate 1024 255)))))
             reset_board.

(** The converter returns 100 + p on pin p. *)
Definition adc_ramp : board :=
  mkBoard (replicate 1024 255) (fun _ => INPUT) (fun _ => false)
          (fun _ => None) (fun p => 100 + p) [] ∅ ∅ (fun _ => None) [].

(** Pin 12 is an input driven high from outside, pin 13 an output with
    a high latch. *)
Definition pins_12_13_high : board :=
  mkBoard (replicate 1024 255)
          (fun p => if p =? 13 then OUTPUT else INPUT)
          (fun p => p =? 13)
          (fun p => if p =? 12 then Some true else None)
          (fun _ => 0) [] ∅ ∅ (fun _ => None) [].

(** The EEPROM holds mode word 1 for pin 5 and mode word 0 for pins 8
    and 9; every pin is an output beforehand. *)
Definition mode_table_5_8_9 : board :=
  mkBoard (<[10%nat := 1]> (<[11%nat := 0]> (<[16%nat := 0]> (<[17%nat := 0]>
             (<[18%nat := 0]> (<[19%nat := 0]> (replicate 1024 255)))))))
          (fun _ => OUTPUT) (fun _ => false) (fun _ => None)
          (fun _ => 0) [] ∅ ∅ (fun _ => None) [].

(** [pins_12_13_high] once [setup] has run. *)
Definition pins_12_13_high_started : board := exec setup pins_12_13_high.

(** ** Vocabulary of the further properties *)

(** The events of a handler that only looks at the board: reads of
    pins, of the converter and of the EEPROM, and writes to the response
    buffer. *)
Definition read_only_event (e : event) : Prop :=
  match e with
  | EvDigitalRead _ | EvAnalogRead _ | EvEepromGet _
  | EvWriteCoilToBuffer _ _ | EvWriteRegisterToBuffer _ _ => True
  | _ => False
  end.

(** A board that a read handler started from [st] may have reached:
    same EEPROM, same pin modes, same latches, and a trace that grew by
    read-only events. *)
Definition only_read (st s : board) : Prop :=
  eeprom s = eeprom st /\ modes s = modes st /\ latches s = latches st /\
  exists t, trace s = trace st ++ t /\ Forall read_only_event t.

(** The calls of [EEPROM.put] a trace records, as (offset, value). *)
Definition eeprom_puts (t : list event) : list (Z * Z) :=
  omap (fun e => match e with
                 | EvEepromPut idx value => Some (idx, value)
                 | _ => None
                 end) t.


(** One handler call of the engine: the handler, its three arguments,
    and the words the engine has put in the request buffer for it. *)
Record handler_call : Type := mkCall {
  c_handler : handler;
  c_fc : Z;
  c_address : Z;
  c_length : Z;
  c_request : list Z
}.

Definition set_request (r : list Z) (st : board) : board :=
  mkBoard (eeprom st) (modes st) (latches st) (signals st) (adc st) r
          (coils st) (registers st) (cbVector st) (trace st).

(** The handler calls of a list, one after the other, the engine
    filling the request buffer before each. *)
Fixpoint serve_all (cs : list handler_call) (st : board) : board :=
  match cs with
  | [] => st
  | c :: cs' =>
      serve_all cs'
        (exec (call (c_handler c) (c_fc c) (c_address c) (c_length c))
              (set_request (c_request c) st))
  end.

(** * Proofs *)

(** ** Machine integers *)

Lemma to_u16_range z : 0 <= to_u16 z < 65536.
Proof. unfold to_u16. apply Z.mod_pos_bound. lia. Qed.

Lemma to_u8_range z : 0 <= to_u8 z < 256.
Proof. unfold to_u8. apply Z.mod_pos_bound. lia. Qed.

Lemma to_u16_small z : 0 <= z < 65536 -> to_u16 z = z.
Proof. intros. unfold to_u16. apply Z.mod_small. lia. Qed.

Lemma to_u8_small z : 0 <= z < 256 -> to_u8 z = z.
Proof. intros. unfold to_u8. apply Z.mod_small. lia. Qed.

(** Two counters of one request never meet on the same register. *)
Lemma to_u16_add_inj a i j :
  0 <= i < 65536 -> 0 <= j < 65536 ->
  to_u16 (a + i) = to_u16 (a + j) -> i = j.
Proof.
  unfold to_u16. intros Hi Hj H.
  pose proof (Z.div_mod (a + i) 65536 ltac:(lia)).
  pose proof (Z.div_mod (a + j) 65536 ltac:(lia)).
  pose proof (Z.mod_pos_bound (a + i) 65536 ltac:(lia)).
  lia.
Qed.

(** ** The monad and the loop *)

Lemma exec_bind {A B : Type} (c : M A) (k : A -> M B) st :
  exec (bind c k) st = exec (k (eval c st)) (exec c st).
Proof. unfold exec, eval, bind. destruct (c st). reflexivity. Qed.

Lemma exec_for_count_S n i body st :
  exec (for_count (S n) i body) st
  = exec (for_count n (i + 1) body) (exec (body i) st).
Proof. cbn [for_count]. apply exec_bind. Qed.

(** Invariant rule: [I i] holds before the iteration of counter [i]. *)
Lemma for_count_inv (I : Z -> board -> Prop) body n lo st :
  I lo st ->
  (forall i s, lo <= i < lo + Z.of_nat n -> I i s -> I (i + 1) (exec (body i) s)) ->
  I (lo + Z.of_nat n) (exec (for_count n lo body) st).
Proof.
  revert lo st. induction n as [|n IH]; intros lo st H0 Hstep.
  - replace (lo + Z.of_nat 0) with lo by lia. exact H0.
  - rewrite exec_for_count_S.
    replace (lo + Z.of_nat (S n)) with ((lo + 1) + Z.of_nat n) by lia.
    apply IH.
    + apply Hstep; [lia | exact H0].
    + intros i s Hi. apply Hstep. lia.
Qed.

Lemma for_range_inv (I : Z -> board -> Prop) body lo hi st :
  lo <= hi ->
  I lo st ->
  (forall i s, lo <= i < hi -> I i s -> I (i + 1) (exec (body i) s)) ->
  I hi (exec (for_range lo hi body) st).
Proof.
  intros Hle H0 Hstep. unfold for_range.
  replace hi with (lo + Z.of_nat (Z.to_nat (hi - lo))) at 1 by lia.
  apply for_count_inv; [exact H0 |].
  intros i s Hi. apply Hstep. lia.
Qed.

(** A property that every iteration keeps is kept by the loop. *)
Lemma for_range_preserves (P : board -> Prop) body lo hi st :
  P st ->
  (forall i s, lo <= i < hi -> P s -> P (exec (body i) s)) ->
  P (exec (for_range lo hi body) st).
Proof.
  intros H0 Hstep. unfold for_range.
  apply (for_count_inv (fun _ => P)); [exact H0 |].
  intros i s Hi. apply Hstep. lia.
Qed.

(** A loop over an empty range does nothing at all. *)
Lemma for_range_empty lo hi body st :
  hi <= lo -> for_range lo hi body st = (tt, st).
Proof.
  intros H. unfold for_range.
  replace (Z.to_nat (hi - lo)) with 0%nat by lia. reflexivity.
Qed.

(** ** The EEPROM *)

Lemma eeprom_byte_range mem a : 0 <= eeprom_byte mem a < 256.
Proof. apply to_u8_range. Qed.

Lemma eeprom_word_range mem idx : 0 <= eeprom_word mem idx < 65536.
Proof.
  unfold eeprom_word.
  pose proof (eeprom_byte_range mem idx).
  pose proof (eeprom_byte_range mem (to_u16 (idx + 1))). lia.
Qed.

Lemma length_eeprom_store mem idx v :
  length (eeprom_store mem idx v) = length mem.
Proof. unfold eeprom_store. rewrite !length_insert. reflexivity. Qed.

(** Reading back the word just stored. *)
Lemma eeprom_word_store_same mem idx v :
  0 <= idx -> idx + 1 < 65536 ->
  idx + 1 < Z.of_nat (length mem) ->
  eeprom_word (eeprom_store mem idx v) idx = to_u16 v.
Proof.
  intros H0 H1 Hlen. unfold eeprom_word, eeprom_store, eeprom_byte.
  rewrite (to_u16_small (idx + 1)) by lia.
  rewrite list_lookup_insert_ne by lia.
  rewrite list_lookup_insert_eq by lia.
  rewrite list_lookup_insert_eq by (rewrite length_insert; lia).
  cbv [default from_option id]. unfold to_u8, to_u16.
  rewrite !Z.mod_mod by lia.
  pose proof (Z.div_mod v 256 ltac:(lia)).
  pose proof (Z.div_mod (v / 256) 256 ltac:(lia)).
  pose proof (Z.div_mod v 65536 ltac:(lia)).
  pose proof (Z.mod_pos_bound v 256 ltac:(lia)).
  pose proof (Z.mod_pos_bound (v / 256) 256 ltac:(lia)).
  pose proof (Z.mod_pos_bound v 65536 ltac:(lia)).
  lia.
Qed.

(** A store leaves the words that share no cell with it alone. *)
Lemma eeprom_word_store_other mem idx v idx' :
  0 <= idx -> idx + 1 < 65536 -> 0 <= idx' -> idx' + 1 < 65536 ->
  idx' + 1 < idx \/ idx + 1 < idx' ->
  eeprom_word (eeprom_store mem idx v) idx' = eeprom_word mem idx'.
Proof.
  intros H0 H1 H0' H1' Hd. unfold eeprom_word, eeprom_store, eeprom_byte.
  rewrite (to_u16_small (idx + 1)), (to_u16_small (idx' + 1)) by lia.
  rewrite !list_lookup_insert_ne by lia. reflexivity.
Qed.

(** ** Write Multiple Holding Registers *)

(** The register index of a pin-mode register is its own pin number. *)
Lemma mode_register_pin r :
  (2 <? r) && (r <? 14) && negb (r =? CTRL_PIN) = true ->
  to_u8 r = r /\ 3 <= r <= 13 /\ r <> CTRL_PIN.
Proof.
  intros H. apply andb_prop in H as [H Hc]. apply andb_prop in H as [Hlo Hhi].
  apply Z.ltb_lt in Hlo, Hhi. apply negb_true_iff, Z.eqb_neq in Hc.
  split; [apply to_u8_small; lia | lia].
Qed.

Lemma writeMemory_unfold fc address len :
  writeMemory fc address len = for_range 0 len (writeMemory_iteration address).
Proof. reflexivity. Qed.

Lemma writeMemory_iteration_request address i s :
  request (exec (writeMemory_iteration address i) s) = request s.
Proof.
  unfold writeMemory_iteration, exec, bind, readRegisterFromBuffer, EEPROM_put.
  cbn. destruct (_ && _); [| reflexivity].
  destruct (to_u16 _) as [|[?|?|]|?]; reflexivity.
Qed.

Lemma writeMemory_iteration_eeprom address i s :
  eeprom (exec (writeMemory_iteration address i) s)
  = eeprom_store (eeprom s) (to_u16 (to_u16 (address + i) * 2))
                 (eval (readRegisterFromBuffer i) s).
Proof.
  unfold writeMemory_iteration, exec, eval, bind, readRegisterFromBuffer, EEPROM_put.
  cbn. destruct (_ && _); [| reflexivity].
  destruct (to_u16 (default _ _)) as [|[?|?|]|?]; reflexivity.
Qed.

Lemma writeMemory_iteration_modes address i s p :
  modes (exec (writeMemory_iteration address i) s) p
  = if (2 <? to_u16 (address + i)) && (to_u16 (address + i) <? 14)
       && negb (to_u16 (address + i) =? CTRL_PIN) && (to_u16 (address + i) =? p)
    then written_mode (eval (readRegisterFromBuffer i) s) (modes s p)
    else modes s p.
Proof.
  unfold writeMemory_iteration, exec, eval, bind, readRegisterFromBuffer, EEPROM_put.
  cbn. destruct (_ && _) eqn:Hg; cbn [andb]; [| reflexivity].
  apply mode_register_pin in Hg as (Hu8 & _ & _).
  destruct (Z.eqb_spec (to_u16 (address + i)) p) as [Heq|Hne].
  - subst p.
    destruct (to_u16 (default _ _)) as [|[?|?|]|?]; cbn; try reflexivity;
      unfold pinMode; cbn; rewrite Hu8, fn_lookup_insert; reflexivity.
  - destruct (to_u16 (default _ _)) as [|[?|?|]|?]; cbn; try reflexivity;
      unfold pinMode; cbn; rewrite Hu8, fn_lookup_insert_ne by exact Hne;
      reflexivity.
Qed.

Lemma writeMemory_iteration_trace address i s :
  exists t, trace (exec (writeMemory_iteration address i) s) = trace s ++ t
            /\ spares_ctrl_pin t.
Proof.
  unfold writeMemory_iteration, exec, bind, readRegisterFromBuffer, EEPROM_put.
  cbn. destruct (_ && _) eqn:Hg.
  - apply mode_register_pin in Hg as (Hu8 & _ & Hctrl).
    destruct (to_u16 (default _ _)) as [|[?|?|]|?]; cbn;
      rewrite <- ?app_assoc; eexists; (split; [reflexivity |]);
      intros m Hin; cbn in Hin;
      repeat (apply elem_of_cons in Hin as [Hin | Hin]; [try discriminate |]);
      try (apply elem_of_nil in Hin; contradiction);
      injection Hin as Hpin _; rewrite Hu8 in Hpin; congruence.
  - cbn. rewrite <- app_assoc. eexists. split; [reflexivity |].
    intros m Hin. cbn in Hin.
    repeat (apply elem_of_cons in Hin as [Hin | Hin]; [discriminate |]).
    apply elem_of_nil in Hin. contradiction.
Qed.

(** C2: whatever a Write Multiple Holding Registers request writes, and
    wherever, the direction of the control pin is the same after the
    request as before, and the request never calls [pinMode] on it: no
    value written to register 8 alters the mode of pin 8. *)
Theorem writeMemory_keeps_ctrl_pin_mode fc address len st :
  modes (exec (writeMemory fc address len) st) CTRL_PIN = modes st CTRL_PIN /\
  exists t, trace (exec (writeMemory fc address len) st) = trace st ++ t
            /\ spares_ctrl_pin t.
Proof.
  rewrite writeMemory_unfold. split.
  - apply (for_range_preserves (fun s => modes s CTRL_PIN = modes st CTRL_PIN));
      [reflexivity |].
    intros i s _ Hs. rewrite writeMemory_iteration_modes.
    destruct (Z.eqb_spec (to_u16 (address + i)) CTRL_PIN) as [Heq|Hne].
    + rewrite Heq. cbn. exact Hs.
    + rewrite andb_false_r. exact Hs.
  - apply (for_range_preserves
             (fun s => exists t, trace s = trace st ++ t /\ spares_ctrl_pin t)).
    + exists []. split; [symmetry; apply app_nil_r |].
      intros m Hin. apply elem_of_nil in Hin. contradiction.
    + intros i s _ (t & Ht & Hsp).
      destruct (writeMemory_iteration_trace address i s) as (t' & Ht' & Hsp').
      exists (t ++ t'). split.
      * rewrite Ht', Ht, app_assoc. reflexivity.
      * intros m Hin. apply elem_of_app in Hin as [Hin | Hin];
          [exact (Hsp m Hin) | exact (Hsp' m Hin)].
Qed.

Lemma readRegisterFromBuffer_request i s st :
  request s = request st ->
  eval (readRegisterFromBuffer i) s = eval (readRegisterFromBuffer i) st.
Proof. intros H. unfold eval, readRegisterFromBuffer. cbn. rewrite H. reflexivity. Qed.

Lemma writeMemory_request fc address len st :
  request (exec (writeMemory fc address len) st) = request st.
Proof.
  rewrite writeMemory_unfold.
  apply (for_range_preserves (fun s => request s = request st)); [reflexivity |].
  intros i s _ Hs. rewrite writeMemory_iteration_request. exact Hs.
Qed.

(** The mode of pin [p] after a request that reaches register [p] at
    counter [i]: only that iteration can touch the pin. *)
Lemma writeMemory_modes_at fc address len st p i :
  3 <= p <= 13 -> p <> CTRL_PIN ->
  0 <= i < len -> len < 65536 ->
  to_u16 (address + i) = p ->
  modes (exec (writeMemory fc address len) st) p
  = written_mode (eval (readRegisterFromBuffer i) st) (modes st p).
Proof.
  intros Hp Hctrl Hi Hlen Hreg.
  set (v := eval (readRegisterFromBuffer i) st).
  rewrite writeMemory_unfold.
  pose (I := fun (j : Z) (s : board) =>
    request s = request st /\
    modes s p = if i <? j then written_mode v (modes st p) else modes st p).
  assert (HI : I len (exec (for_range 0 len (writeMemory_iteration address)) st)).
  { apply for_range_inv; [lia | |].
    - split; [reflexivity |].
      destruct (Z.ltb_spec i 0); [lia | reflexivity].
    - intros j s Hj [Hrq Hm]. split.
      + rewrite writeMemory_iteration_request. exact Hrq.
      + rewrite writeMemory_iteration_modes.
        destruct (Z.eq_dec j i) as [->|Hne].
        * rewrite Hreg, Z.eqb_refl.
          replace ((2 <? p) && (p <? 14) && negb (p =? CTRL_PIN)) with true.
          2:{ symmetry. rewrite !andb_true_iff, negb_true_iff.
              repeat split; [apply Z.ltb_lt; lia | apply Z.ltb_lt; lia
                            | apply Z.eqb_neq; exact Hctrl]. }
          cbn [andb]. rewrite Hm.
          destruct (Z.ltb_spec i i); [lia |].
          destruct (Z.ltb_spec i (i + 1)); [| lia].
          rewrite (readRegisterFromBuffer_request i s st Hrq). reflexivity.
        * assert (Hp' : to_u16 (address + j) <> p).
          { intros Habs. apply Hne.
            apply (to_u16_add_inj address); [lia | lia | congruence]. }
          apply Z.eqb_neq in Hp'. rewrite Hp', andb_false_r, Hm.
          destruct (Z.ltb_spec i j), (Z.ltb_spec i (j + 1)); try lia; reflexivity. }
  destruct HI as [_ Hm]. rewrite Hm.
  destruct (Z.ltb_spec i len); [reflexivity | lia].
Qed.

(** C1: a Write Multiple Holding Registers request that reaches the
    register of a pin p in 3 .. 13 other than the control pin sets the
    pin to INPUT when the value written there is 0, to OUTPUT when it
    is 1, and leaves its mode as it was for any other 16-bit value. *)
Theorem writeMemory_sets_pin_mode fc address len st p i :
  3 <= p <= 13 -> p <> CTRL_PIN ->
  0 <= i < len -> len < 65536 ->
  to_u16 (address + i) = p ->
  let value := eval (readRegisterFromBuffer i) st in
  let st' := exec (writeMemory fc address len) st in
  0 <= value < 65536 /\
  (value = 0 -> modes st' p = INPUT) /\
  (value = 1 -> modes st' p = OUTPUT) /\
  (value <> 0 -> value <> 1 -> modes st' p = modes st p).
Proof.
  intros Hp Hctrl Hi Hlen Hreg value st'.
  assert (Hm := writeMemory_modes_at fc address len st p i Hp Hctrl Hi Hlen Hreg).
  fold value in Hm. fold st' in Hm.
  split; [apply to_u16_range |].
  repeat split.
  - intros Hv. rewrite Hm, Hv. reflexivity.
  - intros Hv. rewrite Hm, Hv. reflexivity.
  - intros H0 H1. rewrite Hm.
    destruct value as [|[?|?|]|?]; try reflexivity; congruence.
Qed.

Lemma writeMemory_sets_pin_mode_witness :
  modes (exec (writeMemory FC_WRITE_MULTIPLE_REGISTERS 3 3) request_017) 3 = INPUT.
Proof.
  refine (proj1 (proj2
    (writeMemory_sets_pin_mode FC_WRITE_MULTIPLE_REGISTERS 3 3 request_017 3 0
       _ _ _ _ _)) _).
  - lia.
  - discriminate.
  - lia.
  - lia.
  - reflexivity.
  - reflexivity.
Defined.

(** C3: the request address=3, length=2 with the words 0 and 1 in the
    request buffer leaves pin 3 an input and pin 4 an output, and the
    EEPROM then holds 0 at word 3 (cells 6, 7) and 1 at word 4
    (cells 8, 9). *)
Theorem writeMemory_3_2_scenario fc st :
  request st = [0; 1] ->
  10 <= Z.of_nat (length (eeprom st)) ->
  let st' := exec (writeMemory fc 3 2) st in
  modes st' 3 = INPUT /\ modes st' 4 = OUTPUT /\
  eval (EEPROM_get (3 * 2)) st' = 0 /\ eval (EEPROM_get (4 * 2)) st' = 1 /\
  eeprom st' = <[9%nat := 0]> (<[8%nat := 1]> (<[7%nat := 0]> (<[6%nat := 0]> (eeprom st)))).
Proof.
  intros Hreq Hlen st'.
  assert (Hv0 : eval (readRegisterFromBuffer 0) st = 0).
  { unfold eval, readRegisterFromBuffer. cbn. rewrite Hreq. reflexivity. }
  assert (Hv1 : eval (readRegisterFromBuffer 1) st = 1).
  { unfold eval, readRegisterFromBuffer. cbn. rewrite Hreq. reflexivity. }
  assert (Hee : eeprom st' = eeprom_store (eeprom_store (eeprom st) 6 0) 8 1).
  { subst st'. rewrite writeMemory_unfold. unfold for_range.
    change (Z.to_nat (2 - 0)) with 2%nat.
    rewrite !exec_for_count_S. unfold exec at 1. cbn [for_count ret snd].
    rewrite !writeMemory_iteration_eeprom.
    rewrite (readRegisterFromBuffer_request (0 + 1) _ st)
      by apply writeMemory_iteration_request.
    change (0 + 1) with 1. rewrite Hv0, Hv1. reflexivity. }
  split; [| split; [| split; [| split]]].
  - subst st'. rewrite (writeMemory_modes_at fc 3 2 st 3 0); try lia;
      [rewrite Hv0; reflexivity | discriminate | reflexivity].
  - subst st'. rewrite (writeMemory_modes_at fc 3 2 st 4 1); try lia;
      [rewrite Hv1; reflexivity | discriminate | reflexivity].
  - unfold eval, EEPROM_get. cbn [fst]. rewrite Hee.
    change (3 * 2) with 6.
    rewrite eeprom_word_store_other by lia.
    rewrite eeprom_word_store_same by lia. reflexivity.
  - unfold eval, EEPROM_get. cbn [fst]. rewrite Hee.
    change (4 * 2) with 8.
    rewrite eeprom_word_store_same by (rewrite ?length_eeprom_store; lia).
    reflexivity.
  - rewrite Hee. reflexivity.
Qed.

Lemma writeMemory_3_2_scenario_witness :
  modes (exec (writeMemory FC_WRITE_MULTIPLE_REGISTERS 3 2) request_01) 4
  = OUTPUT.
Proof.
  refine (proj1 (proj2
    (writeMemory_3_2_scenario FC_WRITE_MULTIPLE_REGISTERS request_01 _ _))).
  - reflexivity.
  - vm_compute. discriminate.
Defined.

(** ** The register read loops *)

Lemma registers_emit ev s : registers (emit ev s) = registers s.
Proof. reflexivity. Qed.
Lemma registers_set_registers r s : registers (set_registers r s) = r.
Proof. reflexivity. Qed.
Lemma trace_emit ev s : trace (emit ev s) = trace s ++ [ev].
Proof. reflexivity. Qed.
Lemma trace_set_registers r s : trace (set_registers r s) = trace s.
Proof. reflexivity. Qed.
Lemma eeprom_emit ev s : eeprom (emit ev s) = eeprom s.
Proof. reflexivity. Qed.
Lemma eeprom_set_registers r s : eeprom (set_registers r s) = eeprom s.
Proof. reflexivity. Qed.
Lemma adc_emit ev s : adc (emit ev s) = adc s.
Proof. reflexivity. Qed.
Lemma adc_set_registers r s : adc (set_registers r s) = adc s.
Proof. reflexivity. Qed.

Create Rewrite HintDb board_fields.
#[local] Hint Rewrite registers_emit registers_set_registers trace_emit
  trace_set_registers eeprom_emit eeprom_set_registers adc_emit
  adc_set_registers : board_fields.

Lemma readAnalogIn_unfold address len :
  readAnalogIn address len
  = respond_words (fun i => analogRead (to_u16 (address + i))) len.
Proof. reflexivity. Qed.

Lemma readMemory_unfold fc address len :
  readMemory fc address len
  = if fc =? FC_READ_INPUT_REGISTERS then readAnalogIn address len
    else respond_words
           (fun i => EEPROM_get (to_u16 (to_u16 (address + i) * 2))) len.
Proof. reflexivity. Qed.

Section RespondWords.
Variable Q : board -> Prop.
Variable src : Z -> M Z.
Variable f : Z -> Z.
Variable e : Z -> event.

Hypothesis Q_emit : forall s ev, Q s -> Q (emit ev s).
Hypothesis Q_registers : forall s r, Q s -> Q (set_registers r s).
Hypothesis src_reads : forall i s, Q s -> src i s = (f i, emit (e i) s).

Lemma respond_words_spec len st :
  Q st ->
  let st' := exec (respond_words src len) st in
  Q st' /\
  (forall i, 0 <= i < len -> registers st' !! i = Some (to_u16 (f i))) /\
  (forall j, ~ (0 <= j < len) -> registers st' !! j = registers st !! j) /\
  trace st' = trace st ++ flat_map (respond_events e f) (seqZ 0 len).
Proof.
  intros HQ st'. subst st'. unfold respond_words.
  destruct (Z.le_gt_cases len 0) as [Hle|Hpos].
  { unfold exec. rewrite for_range_empty by lia. cbn [snd].
    rewrite seqZ_nil by lia. cbn [flat_map]. rewrite app_nil_r.
    repeat split; [exact HQ | intros; lia].  }
  pose (I := fun (j : Z) (s : board) =>
    Q s /\
    (forall i, 0 <= i < j -> registers s !! i = Some (to_u16 (f i))) /\
    (forall k, ~ (0 <= k < j) -> registers s !! k = registers st !! k) /\
    trace s = trace st ++ flat_map (respond_events e f) (seqZ 0 j)).
  apply (for_range_inv I); [lia | |].
  - repeat split; [exact HQ | intros; lia |].
    rewrite seqZ_nil by lia. cbn [flat_map]. rewrite app_nil_r. reflexivity.
  - intros j s Hj (HQs & Hin & Hout & Htr).
    unfold exec, bind. rewrite (src_reads j s HQs).
    unfold writeRegisterToBuffer. cbn [snd].
    unfold I. autorewrite with board_fields.
    repeat split.
    + apply Q_emit, Q_registers, Q_emit, HQs.
    + intros i Hi. destruct (Z.eq_dec i j) as [->|Hne].
      * apply lookup_insert_eq.
      * rewrite lookup_insert_ne by congruence. apply Hin. lia.
    + intros k Hk. rewrite lookup_insert_ne by lia. apply Hout. lia.
    + rewrite Htr.
      replace (j + 1) with (j + 1 - 0) by lia.
      replace (seqZ 0 (j + 1 - 0)) with (seqZ 0 j ++ [j]).
      2:{ replace (j + 1 - 0) with (j + 1) by lia.
          rewrite seqZ_app by lia. reflexivity. }
      rewrite flat_map_app. cbn [flat_map]. rewrite app_nil_r.
      unfold respond_events. rewrite <- !app_assoc. reflexivity.
Qed.
End RespondWords.

Lemma holding_offset_exact address i :
  0 <= address + i < 32768 -> holding_offset address i = (address + i) * 2.
Proof.
  intros H. unfold holding_offset.
  rewrite (to_u16_small (address + i)) by lia. apply to_u16_small. lia.
Qed.

Lemma readMemory_holding_spec fc address len st :
  fc <> FC_READ_INPUT_REGISTERS ->
  let st' := exec (readMemory fc address len) st in
  eeprom st' = eeprom st /\
  (forall i, 0 <= i < len ->
     registers st' !! i = Some (holding_word st address i)) /\
  (forall j, ~ (0 <= j < len) -> registers st' !! j = registers st !! j) /\
  trace st' = trace st ++
    flat_map (respond_events (fun i => EvEepromGet (holding_offset address i))
                             (holding_word st address)) (seqZ 0 len).
Proof.
  intros Hfc st'. subst st'. rewrite readMemory_unfold.
  apply Z.eqb_neq in Hfc. rewrite Hfc.
  destruct (respond_words_spec (fun s => eeprom s = eeprom st)
              (fun i => EEPROM_get (to_u16 (to_u16 (address + i) * 2)))
              (holding_word st address)
              (fun i => EvEepromGet (holding_offset address i)))
    with (len := len) (st := st) as (Hee & Hin & Hout & Htr).
  - intros s ev Hs. exact Hs.
  - intros s r Hs. exact Hs.
  - intros i s Hs. unfold EEPROM_get, holding_word, holding_offset.
    rewrite Hs. reflexivity.
  - reflexivity.
  - repeat split; [exact Hee | | exact Hout | exact Htr].
    intros i Hi. rewrite (Hin i Hi). f_equal.
    apply to_u16_small, eeprom_word_range.
Qed.

(** C6: a Read Holding Registers request (address, length) puts in
    response word i, for every i in [0, length), the EEPROM word of
    index address+i, read at byte offset (address+i)*2 (both computed
    on 16 bits, hence exactly (address+i)*2 below 32768); the other
    response slots keep their content, the only buffer writes are those
    of slots 0 .. length-1 in order, and the EEPROM is not modified. *)
Theorem readMemory_holding_registers address len st :
  let st' := exec (readMemory FC_READ_HOLDING_REGISTERS address len) st in
  (forall i, 0 <= i < len ->
     registers st' !! i
     = Some (eval (EEPROM_get (to_u16 (to_u16 (address + i) * 2))) st) /\
     (0 <= address + i < 32768 ->
      registers st' !! i = Some (eval (EEPROM_get ((address + i) * 2)) st))) /\
  (forall j, ~ (0 <= j < len) -> registers st' !! j = registers st !! j) /\
  trace st' = trace st ++
    flat_map (fun i => [EvEepromGet (holding_offset address i);
                        EvWriteRegisterToBuffer i (holding_word st address i)])
             (seqZ 0 len) /\
  eeprom st' = eeprom st.
Proof.
  intros st'.
  destruct (readMemory_holding_spec FC_READ_HOLDING_REGISTERS address len st)
    as (Hee & Hin & Hout & Htr); [discriminate |].
  fold st' in Hee, Hin, Hout, Htr.
  repeat split.
  - apply Hin; lia.
  - intros Hsmall. rewrite Hin by lia. unfold holding_word.
    rewrite holding_offset_exact by lia. reflexivity.
  - exact Hout.
  - rewrite Htr. f_equal. apply flat_map_ext. intros i.
    unfold respond_events. do 3 f_equal.
    apply to_u16_small, eeprom_word_range.
  - exact Hee.
Qed.

Lemma readMemory_holding_registers_witness :
  registers (exec (readMemory FC_READ_HOLDING_REGISTERS 5 2) eeprom_5_6) !! 1
  = Some 772.
Proof.
  refine (proj1 (proj1
    (readMemory_holding_registers 5 2 eeprom_5_6) 1 _)).
  lia.
Defined.

(** ** Read Input Registers *)

Lemma readMemory_input_spec address len st :
  let st' := exec (readMemory FC_READ_INPUT_REGISTERS address len) st in
  (forall i, 0 <= i < len ->
     registers st' !! i
     = Some (eval (analogRead (to_u16 (address + i))) st)) /\
  (forall j, ~ (0 <= j < len) -> registers st' !! j = registers st !! j).
Proof.
  intros st'. subst st'. rewrite readMemory_unfold.
  change (FC_READ_INPUT_REGISTERS =? FC_READ_INPUT_REGISTERS) with true.
  cbv iota. rewrite readAnalogIn_unfold.
  destruct (respond_words_spec (fun s => adc s = adc st)
              (fun i => analogRead (to_u16 (address + i)))
              (fun i => eval (analogRead (to_u16 (address + i))) st)
              (fun i => EvAnalogRead (to_u8 (to_u16 (address + i)))))
    with (len := len) (st := st) as (_ & Hin & Hout & _).
  - intros s ev Hs. exact Hs.
  - intros s r Hs. exact Hs.
  - intros i s Hs. unfold analogRead, eval. cbn [fst]. rewrite Hs. reflexivity.
  - reflexivity.
  - split; [| exact Hout].
    intros i Hi. rewrite (Hin i Hi). f_equal.
    apply to_u16_small. unfold eval, analogRead. cbn [fst].
    pose proof (Z.mod_pos_bound (adc st (to_u8 (to_u16 (address + i)))) 1024
                  ltac:(lia)). lia.
Qed.

(** C7: a Read Input Registers request (address, length) puts in
    response word i, for every i in [0, length), the analog sample of
    pin address+i; with address=0 and length=3 the slots 0, 1, 2 hold
    the samples of pins 0, 1, 2. *)
Theorem readMemory_input_registers address len st :
  (forall i, 0 <= i < len ->
     registers (exec (readMemory FC_READ_INPUT_REGISTERS address len) st) !! i
     = Some (eval (analogRead (to_u16 (address + i))) st)) /\
  (let st' := exec (readMemory FC_READ_INPUT_REGISTERS 0 3) st in
   registers st' !! 0 = Some (eval (analogRead 0) st) /\
   registers st' !! 1 = Some (eval (analogRead 1) st) /\
   registers st' !! 2 = Some (eval (analogRead 2) st)).
Proof.
  split.
  - apply readMemory_input_spec.
  - intros st'.
    destruct (readMemory_input_spec 0 3 st) as [Hin _]. fold st' in Hin.
    repeat split.
    + apply (Hin 0). lia.
    + apply (Hin 1). lia.
    + apply (Hin 2). lia.
Qed.

Lemma readMemory_input_registers_witness :
  registers (exec (readMemory FC_READ_INPUT_REGISTERS 2 4) adc_ramp) !! 3
  = Some 105.
Proof.
  refine (proj1 (readMemory_input_registers 2 4 adc_ramp) 3 _).
  lia.
Defined.

(** ** Round trip through the EEPROM *)

Lemma eeprom_put_get st off v :
  0 <= off -> off + 1 < 65536 ->
  off + 1 < Z.of_nat (length (eeprom st)) ->
  eval (EEPROM_get off) (exec (EEPROM_put off v) st) = to_u16 v.
Proof.
  intros H0 H1 Hlen. unfold eval, exec, EEPROM_get, EEPROM_put. cbn.
  apply eeprom_word_store_same; assumption.
Qed.

(** The offset of an in-range word index is even and in range. *)
Lemma word_offset_in_range (mem : list Z) idx :
  0 <= idx -> 2 * idx + 1 < Z.of_nat (length mem) ->
  0 <= to_u16 (idx * 2) /\ to_u16 (idx * 2) + 1 < 65536 /\
  to_u16 (idx * 2) + 1 < Z.of_nat (length mem).
Proof.
  intros H0 Hlen. unfold to_u16.
  pose proof (Z.div_mod (idx * 2) 65536 ltac:(lia)).
  pose proof (Z.mod_pos_bound (idx * 2) 65536 ltac:(lia)).
  assert (0 <= Z.div (idx * 2) 65536) by (apply Z.div_pos; lia).
  lia.
Qed.

(** C4: for every word index idx inside the EEPROM and every 16-bit
    value v, the put that Write Multiple Holding Registers performs at
    index idx followed by the get that Read Holding Registers performs
    at index idx returns v; and so through the two handlers: writing v
    to holding register idx and reading it back answers v. *)
Theorem eeprom_put_get_round_trip st idx v :
  0 <= v < 65536 ->
  0 <= idx -> 2 * idx + 1 < Z.of_nat (length (eeprom st)) ->
  eval (EEPROM_get (to_u16 (idx * 2)))
       (exec (EEPROM_put (to_u16 (idx * 2)) v) st) = v /\
  (idx < 65536 -> request st !! 0%nat = Some v ->
   registers
     (exec (readMemory FC_READ_HOLDING_REGISTERS idx 1)
        (exec (writeMemory FC_WRITE_MULTIPLE_REGISTERS idx 1) st)) !! 0
   = Some v).
Proof.
  intros Hv H0 Hlen.
  destruct (word_offset_in_range (eeprom st) idx H0 Hlen) as (Ho0 & Ho1 & Ho2).
  split.
  - rewrite eeprom_put_get by assumption. apply to_u16_small, Hv.
  - intros Hidx Hreq.
    set (st1 := exec (writeMemory FC_WRITE_MULTIPLE_REGISTERS idx 1) st).
    destruct (readMemory_holding_spec FC_READ_HOLDING_REGISTERS idx 1 st1)
      as (_ & Hin & _); [discriminate |].
    rewrite (Hin 0) by lia. f_equal.
    unfold holding_word, holding_offset.
    replace (idx + 0) with idx by lia.
    rewrite (to_u16_small idx) by lia.
    assert (Hval : eval (readRegisterFromBuffer 0) st = v).
    { unfold eval, readRegisterFromBuffer. cbn [fst].
      change (Z.to_nat 0) with 0%nat. rewrite Hreq.
      cbv [default from_option id]. apply to_u16_small, Hv. }
    assert (Hee : eeprom st1 = eeprom_store (eeprom st) (to_u16 (idx * 2)) v).
    { subst st1. rewrite writeMemory_unfold. unfold for_range.
      change (Z.to_nat (1 - 0)) with 1%nat.
      rewrite exec_for_count_S. unfold exec at 1. cbn [for_count ret snd].
      rewrite writeMemory_iteration_eeprom.
      replace (idx + 0) with idx by lia.
      rewrite (to_u16_small idx) by lia. rewrite Hval. reflexivity. }
    rewrite Hee, eeprom_word_store_same by assumption.
    apply to_u16_small, Hv.
Qed.

Lemma eeprom_put_get_round_trip_witness :
  eval (EEPROM_get (to_u16 (7 * 2)))
       (exec (EEPROM_put (to_u16 (7 * 2)) 51966) request_017) = 51966.
Proof.
  refine (proj1 (eeprom_put_get_round_trip request_017 7 51966 _ _ _)).
  - lia.
  - lia.
  - vm_compute. reflexivity.
Defined.

(** ** Read Coils and Read Discrete Inputs *)

Lemma digitalRead_bit pin s :
  negb (eval (digitalRead pin) s =? 0) = pin_level s (to_u8 pin).
Proof. unfold eval, digitalRead. cbn [fst]. destruct (pin_level _ _); reflexivity. Qed.

Lemma readCoils_spec address len st :
  let st' := exec (readCoils address len) st in
  (forall i, 0 <= i < len ->
     coils st' !! i = Some (pin_level st (to_u8 (to_u16 (address + i))))) /\
  (forall j, ~ (0 <= j < len) -> coils st' !! j = coils st !! j).
Proof.
  intros st'. subst st'. unfold readCoils.
  destruct (Z.le_gt_cases len 0) as [Hle|Hpos].
  { unfold exec. rewrite for_range_empty by lia. split; intros; [lia | reflexivity]. }
  pose (I := fun (j : Z) (s : board) =>
    (forall p, pin_level s p = pin_level st p) /\
    (forall i, 0 <= i < j ->
       coils s !! i = Some (pin_level st (to_u8 (to_u16 (address + i))))) /\
    (forall k, ~ (0 <= k < j) -> coils s !! k = coils st !! k)).
  assert (HI : I len (exec (for_range 0 len (fun i =>
                 v <- digitalRead (to_u16 (address + i)) ;;
                 writeCoilToBuffer i v)) st)).
  { apply for_range_inv; [lia | |].
    - repeat split; intros; lia.
    - intros j s Hj (Hpins & Hin & Hout). rewrite exec_bind.
      change (exec (digitalRead (to_u16 (address + j))) s)
        with (emit (EvDigitalRead (to_u8 (to_u16 (address + j)))) s).
      unfold writeCoilToBuffer, exec. cbn [snd].
      rewrite digitalRead_bit, Hpins.
      repeat split.
      + exact Hpins.
      + intros i Hi. cbn [coils emit set_coils].
        destruct (Z.eq_dec i j) as [->|Hne].
        * apply lookup_insert_eq.
        * rewrite lookup_insert_ne by congruence. apply Hin. lia.
      + intros k Hk. cbn [coils emit set_coils].
        rewrite lookup_insert_ne by lia. apply Hout. lia. }
  destruct HI as (_ & Hin & Hout). split; assumption.
Qed.

(** C5: Read Coils and Read Discrete Inputs are one function of the
    address, the length and the board: the FC_READ_COILS branch of
    [readDigitalIn] and its fall-through branch return the same result
    on the same board, and response bit i is the level of pin
    address+i in both. *)
Theorem readDigitalIn_coils_equal_inputs address len st :
  readDigitalIn FC_READ_COILS address len st
  = readDigitalIn FC_READ_DISCRETE_INPUT address len st /\
  (forall fc, readDigitalIn fc address len st = readCoils address len st) /\
  (forall fc i, 0 <= i < len ->
     coils (exec (readDigitalIn fc address len) st) !! i
     = Some (pin_level st (to_u8 (to_u16 (address + i))))).
Proof.
  assert (H : forall fc, readDigitalIn fc address len st = readCoils address len st).
  { intros fc. unfold readDigitalIn. destruct (fc =? FC_READ_COILS); reflexivity. }
  split; [| split].
  - rewrite !H. reflexivity.
  - exact H.
  - intros fc i Hi. unfold exec. rewrite H. apply readCoils_spec. exact Hi.
Qed.

Lemma readDigitalIn_coils_equal_inputs_witness :
  coils (exec (readDigitalIn FC_READ_DISCRETE_INPUT 11 3) pins_12_13_high) !! 2
  = Some true.
Proof.
  refine (proj2 (proj2
    (readDigitalIn_coils_equal_inputs 11 3 pins_12_13_high))
    FC_READ_DISCRETE_INPUT 2 _).
  lia.
Defined.

(** ** Startup *)

Lemma setup_scan_unfold : setup_scan = for_range 3 14 setup_scan_iteration.
Proof. reflexivity. Qed.

Lemma setup_scan_iteration_spec p s :
  3 <= p < 14 ->
  let s' := exec (setup_scan_iteration p) s in
  eeprom s' = eeprom s /\ cbVector s' = cbVector s /\
  trace s' = trace s ++ scan_events s p /\
  forall q, modes s' q
            = if q =? p then written_mode (mode_word s p) (modes s p)
              else modes s q.
Proof.
  intros Hp s'. subst s'.
  unfold setup_scan_iteration, scan_events, mode_word, exec, bind, EEPROM_get.
  rewrite (to_u16_small (p * 2)) by lia.
  assert (Hu8 : to_u8 p = p) by (apply to_u8_small; lia).
  destruct (eeprom_word (eeprom s) (p * 2)) as [|[?|?|]|?]; cbn;
    unfold pinMode; cbn; rewrite ?Hu8, <- ?app_assoc;
    (repeat split; try reflexivity; intros q;
     destruct (Z.eqb_spec q p) as [->|Hne];
     [rewrite ?fn_lookup_insert | rewrite ?fn_lookup_insert_ne by congruence];
     reflexivity).
Qed.

Lemma setup_scan_spec st :
  let st' := exec setup_scan st in
  eeprom st' = eeprom st /\ cbVector st' = cbVector st /\
  trace st' = trace st ++ flat_map (scan_events st) (seqZ 3 11) /\
  forall q, modes st' q
            = if (3 <=? q) && (q <? 14)
              then written_mode (mode_word st q) (modes st q)
              else modes st q.
Proof.
  intros st'. subst st'. rewrite setup_scan_unfold.
  pose (I := fun (j : Z) (s : board) =>
    eeprom s = eeprom st /\ cbVector s = cbVector st /\
    trace s = trace st ++ flat_map (scan_events st) (seqZ 3 (j - 3)) /\
    forall q, modes s q
              = if (3 <=? q) && (q <? j)
                then written_mode (mode_word st q) (modes st q)
                else modes st q).
  change (I 14 (exec (for_range 3 14 setup_scan_iteration) st)).
  apply for_range_inv; [lia | |].
  - unfold I. change (seqZ 3 (3 - 3)) with (@nil Z). cbn [flat_map].
    rewrite app_nil_r. repeat split; try reflexivity.
    intros q. destruct (Z.leb_spec 3 q), (Z.ltb_spec q 3); try lia; reflexivity.
  - intros j s Hj (Hee & Hcb & Htr & Hmo).
    destruct (setup_scan_iteration_spec j s Hj) as (Hee' & Hcb' & Htr' & Hmo').
    assert (Hsame : scan_events s j = scan_events st j).
    { unfold scan_events, mode_word. rewrite Hee. reflexivity. }
    assert (Hword : mode_word s j = mode_word st j).
    { unfold mode_word. rewrite Hee. reflexivity. }
    unfold I. split; [congruence |]. split; [congruence |]. split.
    + rewrite Htr', Htr, Hsame.
      replace (j + 1 - 3) with ((j - 3) + 1) by lia.
      rewrite seqZ_app by lia. rewrite flat_map_app. cbn [seqZ].
      replace (3 + (j - 3)) with j by lia.
      change (seqZ j 1) with [j]. cbn [flat_map].
      rewrite app_nil_r, app_assoc. reflexivity.
    + intros q. rewrite Hmo'.
      destruct (Z.eqb_spec q j) as [->|Hne].
      * rewrite Hword, Hmo.
        destruct (Z.leb_spec 3 j), (Z.ltb_spec j j), (Z.ltb_spec j (j + 1));
          try lia; reflexivity.
      * rewrite Hmo.
        destruct (Z.leb_spec 3 q), (Z.ltb_spec q j), (Z.ltb_spec q (j + 1));
          try lia; reflexivity.
Qed.

(** C8: the scan of [setup] visits exactly the pins 3 .. 13, in order;
    for each it reads the mode word at byte offset pin*2 of the EEPROM
    and makes the pin an input if the word is 0, an output if it is 1,
    and leaves the mode the pin had for any other word; the pins
    outside 3 .. 13 keep their mode. *)
Theorem setup_scan_applies_mode_table st :
  let st' := exec setup_scan st in
  (forall p, 3 <= p <= 13 ->
     let w := eval (EEPROM_get (p * 2)) st in
     (w = 0 -> modes st' p = INPUT) /\
     (w = 1 -> modes st' p = OUTPUT) /\
     (w <> 0 -> w <> 1 -> modes st' p = modes st p)) /\
  (forall p, ~ (3 <= p <= 13) -> modes st' p = modes st p) /\
  trace st' = trace st ++ flat_map (scan_events st) (seqZ 3 11) /\
  seqZ 3 11 = [3; 4; 5; 6; 7; 8; 9; 10; 11; 12; 13] /\
  eeprom st' = eeprom st.
Proof.
  intros st'.
  destruct (setup_scan_spec st) as (Hee & _ & Htr & Hmo).
  fold st' in Hee, Htr, Hmo.
  split; [| split; [| split; [| split]]].
  - intros p Hp w.
    assert (Hm : modes st' p = written_mode w (modes st p)).
    { rewrite Hmo.
      destruct (Z.leb_spec 3 p), (Z.ltb_spec p 14); try lia. reflexivity. }
    split; [| split].
    + intros Hw. rewrite Hm, Hw. reflexivity.
    + intros Hw. rewrite Hm, Hw. reflexivity.
    + intros H0 H1. rewrite Hm.
      destruct w as [|[?|?|]|?]; try reflexivity; congruence.
  - intros p Hp. rewrite Hmo.
    destruct (Z.leb_spec 3 p), (Z.ltb_spec p 14); try lia; reflexivity.
  - exact Htr.
  - reflexivity.
  - exact Hee.
Qed.

Lemma setup_scan_applies_mode_table_witness :
  modes (exec setup_scan mode_table_5_8_9) 9 = INPUT.
Proof.
  refine (proj1 (proj1 (setup_scan_applies_mode_table mode_table_5_8_9) 9 _) _).
  - lia.
  - reflexivity.
Defined.

(** C10: when [setup] returns the control pin is an output, whatever
    word the EEPROM holds at index 8.  The scan applies that word to
    pin 8 as to any pin of 3 .. 13; the call that follows the scan
    overrides it, so that two boards that differ in any way agree on the
    mode of the control pin after [setup]. *)
Theorem setup_ctrl_pin_output st :
  modes (exec setup st) CTRL_PIN = OUTPUT /\
  modes (exec setup_pins st) CTRL_PIN = OUTPUT /\
  modes (exec setup_scan st) CTRL_PIN
  = written_mode (eval (EEPROM_get (CTRL_PIN * 2)) st) (modes st CTRL_PIN) /\
  forall st2, modes (exec setup st2) CTRL_PIN = modes (exec setup st) CTRL_PIN.
Proof.
  assert (Hpins : forall s, modes (exec setup_pins s) CTRL_PIN = OUTPUT).
  { intros s. unfold setup_pins. rewrite exec_bind.
    generalize (exec setup_scan s). intros s1.
    unfold exec, pinMode. cbn [snd]. cbn [modes emit set_modes].
    apply fn_lookup_insert. }
  assert (Hsetup : forall s, modes (exec setup s) CTRL_PIN = OUTPUT).
  { intros s. unfold setup. rewrite !exec_bind.
    rewrite <- (Hpins s). generalize (exec setup_pins s). intros s1.
    reflexivity. }
  split; [apply Hsetup |]. split; [apply Hpins |]. split.
  - destruct (setup_scan_spec st) as (_ & _ & _ & Hmo).
    rewrite Hmo. reflexivity.
  - intros st2. rewrite !Hsetup. reflexivity.
Qed.

(** ** Requests of length 0 *)

Lemma setup_registers_handlers st cb :
  cbVector (exec setup st) cb = registered cb.
Proof.
  unfold setup. rewrite !exec_bind.
  generalize (exec setup_pins st). intros s1.
  destruct cb; reflexivity.
Qed.

(** The loop handlers do nothing on an empty range. *)
Lemma readDigitalIn_zero fc address st : readDigitalIn fc address 0 st = (tt, st).
Proof. unfold readDigitalIn. destruct (fc =? FC_READ_COILS); reflexivity. Qed.

Lemma readMemory_zero fc address st : readMemory fc address 0 st = (tt, st).
Proof. unfold readMemory. destruct (fc =? FC_READ_INPUT_REGISTERS); reflexivity. Qed.

Lemma writeMemory_zero fc address st : writeMemory fc address 0 st = (tt, st).
Proof. reflexivity. Qed.

(** C9, as amended: a request of length 0 served by [readDigitalIn],
    [readMemory] or [writeMemory], that is of the classes Read Coils,
    Read Discrete Inputs, Read Holding Registers, Read Input Registers
    and Write Multiple Holding Registers, at any address, returns the
    board as it was: nothing is written to the response buffer, no
    primitive is called, pin modes, latches and EEPROM are untouched.
    For Write Single Coil the third field is the coil status, not a
    length: status 0 is one [digitalWrite] that drives the pin low, and
    it leaves the response buffer, the pin modes and the EEPROM alone. *)
Theorem zero_length_request st fc address :
  (forall h, h <> h_writeDigitlOut -> call h fc address 0 st = (tt, st)) /\
  ((forall cb, cbVector st cb = registered cb) ->
   fc = FC_READ_COILS \/ fc = FC_READ_DISCRETE_INPUT \/
   fc = FC_READ_HOLDING_REGISTERS \/ fc = FC_READ_INPUT_REGISTERS \/
   fc = FC_WRITE_MULTIPLE_REGISTERS ->
   dispatch fc address 0 st = (tt, st)) /\
  (let st' := exec (writeDigitlOut fc address 0) st in
   trace st' = trace st ++ [EvDigitalWrite (to_u8 address) false] /\
   latches st' = <[to_u8 address := false]> (latches st) /\
   coils st' = coils st /\ registers st' = registers st /\
   modes st' = modes st /\ eeprom st' = eeprom st).
Proof.
  split; [| split].
  - intros h Hh. destruct h; cbn [call].
    + apply readDigitalIn_zero.
    + contradiction.
    + apply readMemory_zero.
    + apply writeMemory_zero.
  - intros Hcb Hfc. unfold dispatch.
    destruct Hfc as [-> | [-> | [-> | [-> | ->]]]].
    + change (callback_of FC_READ_COILS) with (Some CB_READ_COILS).
      cbv beta iota. rewrite Hcb. apply readDigitalIn_zero.
    + change (callback_of FC_READ_DISCRETE_INPUT) with (Some CB_READ_COILS).
      cbv beta iota. rewrite Hcb. apply readDigitalIn_zero.
    + change (callback_of FC_READ_HOLDING_REGISTERS) with (Some CB_READ_REGISTERS).
      cbv beta iota. rewrite Hcb. apply readMemory_zero.
    + change (callback_of FC_READ_INPUT_REGISTERS) with (Some CB_READ_REGISTERS).
      cbv beta iota. rewrite Hcb. apply readMemory_zero.
    + change (callback_of FC_WRITE_MULTIPLE_REGISTERS)
        with (Some CB_WRITE_MULTIPLE_REGISTERS).
      cbv beta iota. rewrite Hcb. apply writeMemory_zero.
  - intros st'. subst st'. unfold exec, writeDigitlOut, digitalWrite.
    cbn. repeat split.
Qed.

Lemma zero_length_request_witness :
  dispatch FC_READ_INPUT_REGISTERS 40 0 pins_12_13_high_started
  = (tt, pins_12_13_high_started).
Proof.
  refine (proj1 (proj2 (zero_length_request pins_12_13_high_started
                          FC_READ_INPUT_REGISTERS 40)) _ _).
  - apply setup_registers_handlers.
  - right. right. right. left. reflexivity.
Defined.

(** C9 as stated fails for Write Single Coil: on a board whose pin 13
    has its latch high, the handler called with third field 0 makes a
    [digitalWrite] and pulls the latch low, and so does the request
    (FC=05, address 13, third field 0) dispatched after [setup]. *)
Lemma zero_length_write_coil_changes_board :
  latches pins_12_13_high 13 = true /\
  latches (exec (writeDigitlOut FC_WRITE_COIL 13 0) pins_12_13_high) 13
  = false /\
  trace (exec (writeDigitlOut FC_WRITE_COIL 13 0) pins_12_13_high)
  = trace pins_12_13_high ++ [EvDigitalWrite 13 false] /\
  latches pins_12_13_high_started 13 = true /\
  latches (exec (dispatch FC_WRITE_COIL 13 0) pins_12_13_high_started) 13
  = false /\
  trace (exec (dispatch FC_WRITE_COIL 13 0) pins_12_13_high_started)
  = trace pins_12_13_high_started ++ [EvDigitalWrite 13 false] /\
  dispatch FC_WRITE_COIL 13 0 pins_12_13_high_started
  <> (tt, pins_12_13_high_started).
Proof.
  repeat (split; [vm_compute; reflexivity |]).
  intros H. apply (f_equal (fun r => latches (snd r) 13)) in H.
  vm_compute in H. discriminate H.
Qed.

(** * Further properties of the handlers *)

(** ** Write Multiple Holding Registers and the EEPROM *)

Lemma to_u16_idemp z : to_u16 (to_u16 z) = to_u16 z.
Proof. apply to_u16_small, to_u16_range. Qed.

Lemma to_u8_to_u16 z : to_u8 (to_u16 z) = to_u8 z.
Proof.
  unfold to_u8, to_u16.
  pose proof (Z.div_mod z 65536 ltac:(lia)).
  pose proof (Z.div_mod (z mod 65536) 256 ltac:(lia)).
  pose proof (Z.div_mod z 256 ltac:(lia)).
  pose proof (Z.mod_pos_bound (z mod 65536) 256 ltac:(lia)).
  pose proof (Z.mod_pos_bound z 256 ltac:(lia)).
  lia.
Qed.

Lemma readRegisterFromBuffer_u16 i st :
  to_u16 (eval (readRegisterFromBuffer i) st) = eval (readRegisterFromBuffer i) st.
Proof. unfold eval, readRegisterFromBuffer. cbn [fst]. apply to_u16_idemp. Qed.

(** Below register 32768 the byte offset of a register is twice its
    index. *)
Lemma register_offset_exact address i :
  0 <= address + i < 32768 ->
  to_u16 (to_u16 (address + i) * 2) = (address + i) * 2.
Proof. apply holding_offset_exact. Qed.

Lemma writeMemory_iteration_length address i s :
  length (eeprom (exec (writeMemory_iteration address i) s)) = length (eeprom s).
Proof. rewrite writeMemory_iteration_eeprom. apply length_eeprom_store. Qed.



(** The word of a register the request reaches, inside the device, is
    the request word of the same rank. *)
Lemma writeMemory_word_at fc address len st i :
  0 <= address -> address + len <= 32768 -> 0 <= i < len ->
  2 * (address + i) + 1 < Z.of_nat (length (eeprom st)) ->
  eeprom_word (eeprom (exec (writeMemory fc address len) st)) ((address + i) * 2)
  = eval (readRegisterFromBuffer i) st.
Proof.
  intros Ha Hlen Hi Hin. rewrite writeMemory_unfold.
  set (v := eval (readRegisterFromBuffer i) st).
  set (o := (address + i) * 2).
  pose (I := fun (j : Z) (s : board) =>
    request s = request st /\
    length (eeprom s) = length (eeprom st) /\
    eeprom_word (eeprom s) o
    = if i <? j then v else eeprom_word (eeprom st) o).
  assert (HI : I len (exec (for_range 0 len (writeMemory_iteration address)) st)).
  { apply for_range_inv; [lia | |].
    - unfold I. repeat split.
      destruct (Z.ltb_spec i 0); [lia | reflexivity].
    - intros j s Hj (Hrq & Hl & Hw). unfold I.
      split; [rewrite writeMemory_iteration_request; exact Hrq |].
      split; [rewrite writeMemory_iteration_length; exact Hl |].
      rewrite writeMemory_iteration_eeprom.
      rewrite register_offset_exact by lia.
      destruct (Z.eq_dec j i) as [->|Hne].
      + fold o. rewrite eeprom_word_store_same by (unfold o; lia).
        rewrite (readRegisterFromBuffer_request i s st Hrq).
        rewrite readRegisterFromBuffer_u16.
        destruct (Z.ltb_spec i (i + 1)); [reflexivity | lia].
      + unfold o. rewrite eeprom_word_store_other by lia.
        fold o. rewrite Hw.
        destruct (Z.ltb_spec i j), (Z.ltb_spec i (j + 1)); try lia; reflexivity. }
  destruct HI as (_ & _ & Hw). rewrite Hw.
  destruct (Z.ltb_spec i len); [reflexivity | lia].
Qed.

(** X1: what a Write Multiple Holding Registers request stores, a Read
    Holding Registers request of the same address and length returns:
    response word i is request word i, for every register of the
    request, when the registers lie inside the EEPROM (and below
    register 32768, where byte offsets do not wrap).  This holds for
    every register, the pin-mode registers 3 .. 13 and the protected
    register 8 included. *)
Theorem writeMemory_then_readMemory fc fc' address len st i :
  fc' <> FC_READ_INPUT_REGISTERS ->
  0 <= address -> address + len <= 32768 ->
  2 * (address + len) <= Z.of_nat (length (eeprom st)) ->
  0 <= i < len ->
  registers (exec (readMemory fc' address len)
               (exec (writeMemory fc address len) st)) !! i
  = Some (eval (readRegisterFromBuffer i) st).
Proof.
  intros Hfc Ha Hlen Hcap Hi.
  destruct (readMemory_holding_spec fc' address len
              (exec (writeMemory fc address len) st) Hfc) as (_ & Hin & _).
  rewrite (Hin i Hi). f_equal. unfold holding_word.
  rewrite holding_offset_exact by lia.
  apply writeMemory_word_at; lia.
Qed.

Lemma writeMemory_then_readMemory_witness :
  registers (exec (readMemory FC_READ_HOLDING_REGISTERS 7 3)
               (exec (writeMemory FC_WRITE_MULTIPLE_REGISTERS 7 3) request_017)) !! 2
  = Some (eval (readRegisterFromBuffer 2) request_017).
Proof.
  apply (writeMemory_then_readMemory FC_WRITE_MULTIPLE_REGISTERS
           FC_READ_HOLDING_REGISTERS 7 3 request_017 2).
  - discriminate.
  - lia.
  - lia.
  - vm_compute. discriminate.
  - lia.
Defined.



(** ** Write Multiple Holding Registers and the other pins *)

(** X3: a Write Multiple Holding Registers request changes the mode of
    no pin outside 3 .. 13, whatever it writes, and of no pin whose
    register it does not reach. *)
Theorem writeMemory_keeps_other_pin_modes fc address len st q :
  ~ (3 <= q <= 13) \/ (forall i, 0 <= i < len -> to_u16 (address + i) <> q) ->
  modes (exec (writeMemory fc address len) st) q = modes st q.
Proof.
  intros Hq. rewrite writeMemory_unfold.
  apply (for_range_preserves (fun s => modes s q = modes st q)); [reflexivity |].
  intros i s Hi Hs. rewrite writeMemory_iteration_modes.
  destruct (_ && _ && _ && _) eqn:Hg; [| exact Hs].
  exfalso. apply andb_prop in Hg as [Hg Heq]. apply Z.eqb_eq in Heq.
  apply mode_register_pin in Hg as (_ & Hr & _).
  destruct Hq as [Hq | Hq]; [apply Hq; lia | exact (Hq i Hi Heq)].
Qed.

Lemma writeMemory_keeps_other_pin_modes_witness :
  modes (exec (writeMemory FC_WRITE_MULTIPLE_REGISTERS 0 3) request_017) 1
  = modes request_017 1.
Proof.
  apply (writeMemory_keeps_other_pin_modes FC_WRITE_MULTIPLE_REGISTERS 0 3
           request_017 1).
  left. lia.
Defined.

(** X8: a Write Multiple Holding Registers request calls [EEPROM.put]
    exactly once per register, in request order, with the request word
    of the same rank, at the offset of register address+i; this is so
    for every register, whether or not it configures a pin. *)
Theorem writeMemory_puts_once_per_register fc address len st :
  eeprom_puts (trace (exec (writeMemory fc address len) st))
  = eeprom_puts (trace st) ++
    ((fun i => (to_u16 (to_u16 (address + i) * 2),
                eval (readRegisterFromBuffer i) st)) <$> seqZ 0 len).
Proof.
  rewrite writeMemory_unfold.
  destruct (Z.le_gt_cases len 0) as [Hle|Hpos].
  { unfold exec. rewrite for_range_empty by lia. cbn [snd].
    rewrite seqZ_nil by lia. cbn. rewrite app_nil_r. reflexivity. }
  set (g := fun i => (to_u16 (to_u16 (address + i) * 2),
                      eval (readRegisterFromBuffer i) st)).
  pose (I := fun (j : Z) (s : board) =>
    request s = request st /\
    eeprom_puts (trace s) = eeprom_puts (trace st) ++ (g <$> seqZ 0 j)).
  assert (HI : I len (exec (for_range 0 len (writeMemory_iteration address)) st)).
  { apply for_range_inv; [lia | |].
    - unfold I. split; [reflexivity |]. cbn. rewrite app_nil_r. reflexivity.
    - intros j s Hj (Hrq & Hp). unfold I.
      split; [rewrite writeMemory_iteration_request; exact Hrq |].
      assert (Hstep : eeprom_puts (trace (exec (writeMemory_iteration address j) s))
                      = eeprom_puts (trace s) ++ [g j]).
      { unfold g. rewrite <- (readRegisterFromBuffer_request j s st Hrq).
        unfold writeMemory_iteration, exec, eval, bind,
          readRegisterFromBuffer, EEPROM_put.
        cbn. destruct (_ && _).
        - destruct (to_u16 (default _ _)) as [|[?|?|]|?]; cbn;
            unfold eeprom_puts; rewrite !omap_app; cbn;
            rewrite ?app_nil_r; reflexivity.
        - cbn. unfold eeprom_puts. rewrite !omap_app. cbn.
          rewrite ?app_nil_r. reflexivity. }
      rewrite Hstep, Hp.
      replace (j + 1) with (j + 1 - 0) by lia.
      replace (seqZ 0 (j + 1 - 0)) with (seqZ 0 j ++ [j]).
      2:{ replace (j + 1 - 0) with (j + 1) by lia.
          rewrite seqZ_app by lia. reflexivity. }
      rewrite fmap_app, app_assoc. reflexivity. }
  exact (proj2 HI).
Qed.

(** ** The read handlers only read *)

Lemma only_read_refl st : only_read st st.
Proof.
  unfold only_read. repeat split.
  exists []. split; [symmetry; apply app_nil_r | constructor].
Qed.

(** One more read-only step keeps a board within [only_read]. *)
Lemma only_read_step st s s' t :
  only_read st s ->
  eeprom s' = eeprom s -> modes s' = modes s -> latches s' = latches s ->
  trace s' = trace s ++ t -> Forall read_only_event t ->
  only_read st s'.
Proof.
  intros (He & Hm & Hl & t0 & Ht0 & Hro) He' Hm' Hl' Ht' Hro'.
  unfold only_read. split; [congruence |]. split; [congruence |].
  split; [congruence |].
  exists (t0 ++ t). split.
  - rewrite Ht', Ht0, app_assoc. reflexivity.
  - apply Forall_app. split; assumption.
Qed.

Lemma readCoils_only_read address len st :
  only_read st (exec (readCoils address len) st).
Proof.
  unfold readCoils.
  apply (for_range_preserves (only_read st)); [apply only_read_refl |].
  intros i s _ Hs.
  apply (only_read_step st s _
           [EvDigitalRead (to_u8 (to_u16 (address + i)));
            EvWriteCoilToBuffer i
              (negb (eval (digitalRead (to_u16 (address + i))) s =? 0))] Hs);
    try reflexivity.
  - unfold exec, eval, bind, digitalRead, writeCoilToBuffer. cbn.
    rewrite <- app_assoc. reflexivity.
  - repeat constructor.
Qed.

Lemma respond_words_only_read (src : Z -> M Z) (e : Z -> event) len st :
  (forall i, read_only_event (e i)) ->
  (forall i s, exec (src i) s = emit (e i) s) ->
  only_read st (exec (respond_words src len) st).
Proof.
  intros He Hsrc. unfold respond_words.
  apply (for_range_preserves (only_read st)); [apply only_read_refl |].
  intros i s _ Hs. rewrite exec_bind, Hsrc.
  apply (only_read_step st s _
           [e i; EvWriteRegisterToBuffer i (to_u16 (eval (src i) s))] Hs);
    try reflexivity.
  - unfold exec, writeRegisterToBuffer. cbn. rewrite <- app_assoc. reflexivity.
  - constructor; [apply He |]. repeat constructor.
Qed.

Lemma readDigitalIn_only_read fc address len st :
  only_read st (exec (readDigitalIn fc address len) st).
Proof.
  assert (H : readDigitalIn fc address len st = readCoils address len st).
  { unfold readDigitalIn. destruct (fc =? FC_READ_COILS); reflexivity. }
  unfold exec. rewrite H. apply readCoils_only_read.
Qed.

Lemma readMemory_only_read fc address len st :
  only_read st (exec (readMemory fc address len) st).
Proof.
  rewrite readMemory_unfold. destruct (fc =? FC_READ_INPUT_REGISTERS).
  - rewrite readAnalogIn_unfold.
    apply (respond_words_only_read _
             (fun i => EvAnalogRead (to_u8 (to_u16 (address + i))))).
    + intros i. exact I.
    + intros i s. reflexivity.
  - apply (respond_words_only_read _
             (fun i => EvEepromGet (to_u16 (to_u16 (address + i) * 2)))).
    + intros i. exact I.
    + intros i s. reflexivity.
Qed.

(** X4: the read handlers only read.  For every function code, address
    and length, [readDigitalIn] and [readMemory] leave the EEPROM, the
    pin modes and the pin latches as they were, and call nothing but
    [digitalRead], [analogRead], [EEPROM.get] and the response-buffer
    writers. *)
Theorem read_handlers_only_read fc address len st :
  only_read st (exec (readDigitalIn fc address len) st) /\
  only_read st (exec (readMemory fc address len) st).
Proof.
  split; [apply readDigitalIn_only_read | apply readMemory_only_read].
Qed.

(** ** Startup as a whole *)

(** After the scan, [setup] changes one pin mode, that of the control
    pin, and no EEPROM cell. *)
Lemma setup_after_scan st :
  eeprom (exec setup st) = eeprom (exec setup_scan st) /\
  forall q, modes (exec setup st) q
            = if q =? CTRL_PIN then OUTPUT else modes (exec setup_scan st) q.
Proof.
  unfold setup, setup_pins. rewrite !exec_bind.
  generalize (exec setup_scan st). intros s1. split; [reflexivity |].
  intros q.
  change (<[to_u8 CTRL_PIN := OUTPUT]> (modes s1) q
          = if q =? CTRL_PIN then OUTPUT else modes s1 q).
  change (to_u8 CTRL_PIN) with CTRL_PIN.
  destruct (Z.eqb_spec q CTRL_PIN) as [->|Hne].
  - apply fn_lookup_insert.
  - apply fn_lookup_insert_ne. congruence.
Qed.

Lemma setup_modes st q :
  modes (exec setup st) q
  = if q =? CTRL_PIN then OUTPUT
    else if (3 <=? q) && (q <? 14)
         then written_mode (mode_word st q) (modes st q)
         else modes st q.
Proof.
  destruct (setup_after_scan st) as [_ Hm]. rewrite Hm.
  destruct (setup_scan_spec st) as (_ & _ & _ & Hscan). rewrite Hscan.
  reflexivity.
Qed.

(** X5: [setup] as a whole.  Every pin of 3 .. 13 other than the
    control pin ends with the mode its EEPROM word stands for (0 INPUT,
    1 OUTPUT, anything else the mode it had); the pins outside 3 .. 13
    keep their mode; and [setup] leaves the EEPROM as it found it. *)
Theorem setup_pin_modes st :
  (forall p, 3 <= p <= 13 -> p <> CTRL_PIN ->
     modes (exec setup st) p
     = written_mode (eval (EEPROM_get (p * 2)) st) (modes st p)) /\
  (forall p, ~ (3 <= p <= 13) -> modes (exec setup st) p = modes st p) /\
  eeprom (exec setup st) = eeprom st.
Proof.
  split; [| split].
  - intros p Hp Hctrl. rewrite setup_modes.
    apply Z.eqb_neq in Hctrl. rewrite Hctrl.
    destruct (Z.leb_spec 3 p), (Z.ltb_spec p 14); try lia. reflexivity.
  - intros p Hp. rewrite setup_modes.
    destruct (Z.eqb_spec p CTRL_PIN) as [->|_]; [unfold CTRL_PIN in Hp; lia |].
    destruct (Z.leb_spec 3 p), (Z.ltb_spec p 14); try lia; reflexivity.
  - destruct (setup_after_scan st) as [He _]. rewrite He.
    apply setup_scan_spec.
Qed.

Lemma setup_pin_modes_witness :
  modes (exec setup mode_table_5_8_9) 5
  = written_mode (eval (EEPROM_get (5 * 2)) mode_table_5_8_9)
                 (modes mode_table_5_8_9 5).
Proof.
  refine (proj1 (setup_pin_modes mode_table_5_8_9) 5 _ _).
  - lia.
  - discriminate.
Defined.



(** ** Force Single Coil, read back *)

Lemma readDigitalIn_coils_spec_any fc address len st :
  (forall i, 0 <= i < len ->
     coils (exec (readDigitalIn fc address len) st) !! i
     = Some (pin_level st (to_u8 (to_u16 (address + i))))) /\
  (forall j, ~ (0 <= j < len) ->
     coils (exec (readDigitalIn fc address len) st) !! j = coils st !! j).
Proof.
  assert (H : readDigitalIn fc address len st = readCoils address len st).
  { unfold readDigitalIn. destruct (fc =? FC_READ_COILS); reflexivity. }
  unfold exec. rewrite H. apply readCoils_spec.
Qed.

(** X7: on a pin that is an output, the level Force Single Coil writes
    is the level Read Coils and Read Discrete Inputs then report for
    that coil: low for status 0, high for any other status byte; and
    the write changes the level read on no other pin. *)
Theorem writeDigitlOut_read_back fc fc' address status st :
  modes st (to_u8 address) = OUTPUT ->
  coils (exec (readDigitalIn fc' address 1)
           (exec (writeDigitlOut fc address status) st)) !! 0
  = Some (negb (to_u8 status =? 0)) /\
  forall q, q <> to_u8 address ->
    pin_level (exec (writeDigitlOut fc address status) st) q = pin_level st q.
Proof.
  intros Hout. split.
  - destruct (readDigitalIn_coils_spec_any fc' address 1
                (exec (writeDigitlOut fc address status) st)) as [Hin _].
    rewrite (Hin 0) by lia. f_equal.
    replace (address + 0) with address by lia. rewrite to_u8_to_u16.
    unfold pin_level, exec, writeDigitlOut, digitalWrite. cbn.
    rewrite Hout. apply fn_lookup_insert.
  - intros q Hq.
    unfold pin_level, exec, writeDigitlOut, digitalWrite. cbn.
    rewrite fn_lookup_insert_ne by congruence. reflexivity.
Qed.

Lemma writeDigitlOut_read_back_witness :
  coils (exec (readDigitalIn FC_READ_COILS 13 1)
           (exec (writeDigitlOut FC_WRITE_COIL 13 0) pins_12_13_high)) !! 0
  = Some (negb (to_u8 0 =? 0)).
Proof.
  refine (proj1 (writeDigitlOut_read_back FC_WRITE_COIL FC_READ_COILS 13 0
                   pins_12_13_high _)).
  vm_compute. reflexivity.
Defined.

(** ** The response slots a read request writes *)

(** X9: a read request writes the response slots 0 .. length-1 and no
    other: for every function code, [readDigitalIn] leaves the response
    bits outside [0, length) as they were, and [readMemory] the
    response words outside [0, length). *)
Theorem read_handlers_keep_other_slots fc address len st j :
  ~ (0 <= j < len) ->
  coils (exec (readDigitalIn fc address len) st) !! j = coils st !! j /\
  registers (exec (readMemory fc address len) st) !! j = registers st !! j.
Proof.
  intros Hj. split.
  - apply readDigitalIn_coils_spec_any. exact Hj.
  - destruct (Z.eq_dec fc FC_READ_INPUT_REGISTERS) as [-> | Hfc].
    + apply readMemory_input_spec. exact Hj.
    + destruct (readMemory_holding_spec fc address len st Hfc) as (_ & _ & Hout & _).
      apply Hout. exact Hj.
Qed.

Lemma read_handlers_keep_other_slots_witness :
  coils (exec (readDigitalIn FC_READ_DISCRETE_INPUT 11 3) pins_12_13_high) !! 3
  = coils pins_12_13_high !! 3.
Proof.
  refine (proj1 (read_handlers_keep_other_slots FC_READ_DISCRETE_INPUT 11 3
                   pins_12_13_high 3 _)).
  lia.
Defined.

(** ** The pins no handler reconfigures *)

(** [writeMemory] calls [pinMode] behind its guard only. *)
Lemma writeMemory_modes_guarded fc address len st q :
  q = CTRL_PIN \/ ~ (3 <= q <= 13) ->
  modes (exec (writeMemory fc address len) st) q = modes st q.
Proof.
  intros Hq. rewrite writeMemory_unfold.
  apply (for_range_preserves (fun s => modes s q = modes st q)); [reflexivity |].
  intros i s _ Hs. rewrite writeMemory_iteration_modes.
  destruct (_ && _ && _ && _) eqn:Hg; [| exact Hs].
  exfalso. apply andb_prop in Hg as [Hg Heq]. apply Z.eqb_eq in Heq.
  apply mode_register_pin in Hg as (_ & Hr & Hc).
  destruct Hq as [Hq | Hq]; [congruence | apply Hq; lia].
Qed.

Lemma call_modes_guarded h fc address len st q :
  q = CTRL_PIN \/ ~ (3 <= q <= 13) ->
  modes (exec (call h fc address len) st) q = modes st q.
Proof.
  intros Hq. destruct h; cbn [call].
  - destruct (readDigitalIn_only_read fc address len st) as (_ & Hm & _).
    rewrite Hm. reflexivity.
  - reflexivity.
  - destruct (readMemory_only_read fc address len st) as (_ & Hm & _).
    rewrite Hm. reflexivity.
  - apply writeMemory_modes_guarded. exact Hq.
Qed.

Lemma serve_all_modes_guarded cs st q :
  q = CTRL_PIN \/ ~ (3 <= q <= 13) ->
  modes (serve_all cs st) q = modes st q.
Proof.
  intros Hq. revert st. induction cs as [|c cs IH]; intros st; [reflexivity |].
  cbn [serve_all]. rewrite IH, call_modes_guarded by exact Hq. reflexivity.
Qed.

(** X10: once [setup] has run, the control pin stays an output through
    any sequence of handler calls, with any arguments and any request
    buffers; and over [setup] and any such sequence the pins outside
    3 .. 13 keep the mode they had before [setup]. *)
Theorem ctrl_pin_stays_output cs st :
  modes (serve_all cs (exec setup st)) CTRL_PIN = OUTPUT /\
  forall q, ~ (3 <= q <= 13) ->
    modes (serve_all cs (exec setup st)) q = modes st q.
Proof.
  split.
  - rewrite serve_all_modes_guarded by (left; reflexivity).
    rewrite setup_modes. reflexivity.
  - intros q Hq. rewrite serve_all_modes_guarded by (right; exact Hq).
    rewrite setup_modes.
    destruct (Z.eqb_spec q CTRL_PIN) as [->|_]; [unfold CTRL_PIN in Hq; lia |].
    destruct (Z.leb_spec 3 q), (Z.ltb_spec q 14); try lia; reflexivity.
Qed.

Lemma ctrl_pin_stays_output_witness :
  modes (serve_all [mkCall h_writeMemory FC_WRITE_MULTIPLE_REGISTERS 0 9 [0; 0; 0; 0; 0; 0; 0; 0; 0];
                    mkCall h_writeDigitlOut FC_WRITE_COIL 1 1 []]
           (exec setup reset_board)) 1
  = modes reset_board 1.
Proof.
  refine (proj2 (ctrl_pin_stays_output _ reset_board) 1 _).
  lia.
Defined.
